(** * xfat: a read-only FAT32 reader, embedded from [xfat.c]

    The C translation unit is modelled function by function.  Integers of
    a fixed width are [Z] with the wrap-around of each conversion written
    out; memory is byte addressed and little endian (the file states the
    constraint "little-endian cpu"); pointers are addresses.  The single
    global [xfat] context, the memory and the device behind the storage
    provider are threaded explicitly through every function. *)

From Stdlib Require Import ZArith List Bool String Ascii Lia.
Import ListNotations.
Local Open Scope Z_scope.

(** ** Constants *)

Definition XFAT_PATHMAX : Z := 128.
Definition FAT_DELETE_CHAR : Z := 0xe5.

(** ** Fixed-width integers *)

Definition u8 (v : Z) : Z := v mod 2 ^ 8.
Definition u16 (v : Z) : Z := v mod 2 ^ 16.
Definition u32 (v : Z) : Z := v mod 2 ^ 32.

(** ** Memory

    A memory maps an address to the byte stored there.  The three loads
    below are what [*(volatile uintN_t * )p] does on the little-endian
    target. *)

Definition mem := Z -> Z.

Definition load8 (m : mem) (a : Z) : Z := u8 (m a).

Definition load16 (m : mem) (a : Z) : Z :=
  Z.lor (load8 m a) (Z.shiftl (load8 m (a + 1)) 8).

Definition load32 (m : mem) (a : Z) : Z :=
  Z.lor (Z.lor (Z.lor (load8 m a) (Z.shiftl (load8 m (a + 1)) 8))
               (Z.shiftl (load8 m (a + 2)) 16))
        (Z.shiftl (load8 m (a + 3)) 24).

(** [store_bytes m a bs] is [m] with the bytes [bs] written from address
    [a] on; it is how the example providers fill the host buffer. *)
Fixpoint store_bytes (m : mem) (a : Z) (bs : list Z) : mem :=
  match bs with
  | [] => m
  | b :: bs' => fun x => if x =? a then b else store_bytes m (a + 1) bs' x
  end.

(** ** Field readers *)

(** [is_power_of_2]: [return v && !(v & (v - 1));] on a [uint32_t]. *)
Definition is_power_of_2 (v : Z) : Z :=
  if v =? 0 then 0
  else if Z.land v (u32 (v - 1)) =? 0 then 1 else 0.

(** [read_byte]: [return *(volatile uint8_t * )(&buf[offset]);] *)
Definition read_byte (m : mem) (buf offset : Z) : Z :=
  load8 m (buf + offset).

(** [read_half]: byte-wise assembly when the address has one of its two
    low bits set, a direct 16-bit load otherwise. *)
Definition read_half (m : mem) (buf offset : Z) : Z :=
  let addr := buf + offset in
  if negb (Z.land addr 3 =? 0) then
    u16 (Z.lor (u16 (read_byte m buf offset))
               (u16 (Z.shiftl (read_byte m buf (offset + 1)) 8)))
  else
    u16 (load16 m (buf + offset)).

(** [read_word]: the result variable is declared [uint16_t ret], so both
    branches are narrowed to 16 bits before they are returned; the
    byte-wise branch reads the half at [offset] twice. *)
Definition read_word (m : mem) (buf offset : Z) : Z :=
  let addr := buf + offset in
  if negb (Z.land addr 7 =? 0) then
    u16 (Z.lor (u32 (read_half m buf offset))
               (u32 (Z.shiftl (read_half m buf offset) 16)))
  else
    u16 (load32 m (buf + offset)).

(** [read_unaligned] returns the value it stores through [dst]; the last
    branch is the deliberate load from address 3, narrowed to a byte. *)
Definition read_unaligned (m : mem) (buf offset size : Z) : Z :=
  if size =? 4 then read_word m buf offset
  else if size =? 2 then read_half m buf offset
  else if size =? 1 then read_byte m buf offset
  else u8 (load32 m 3).

(** The little-endian values the specification speaks of. *)
Definition le16_at (m : mem) (a : Z) : Z :=
  Z.lor (load8 m a) (Z.shiftl (load8 m (a + 1)) 8).

Definition le32_at (m : mem) (a : Z) : Z :=
  Z.lor (Z.lor (Z.lor (load8 m a) (Z.shiftl (load8 m (a + 1)) 8))
               (Z.shiftl (load8 m (a + 2)) 16))
        (Z.shiftl (load8 m (a + 3)) 24).

Definition zero_mem : mem := fun _ => 0.

(** Four bytes [78 56 34 12] at address 0, and the same at address 1. *)
Definition word_mem : mem := store_bytes zero_mem 0 [0x78; 0x56; 0x34; 0x12].
Definition word_mem_odd : mem :=
  store_bytes zero_mem 1 [0x78; 0x56; 0x34; 0x12].


(** ** On-disk structures *)

(** [struct xfat32_bpb]: the packed block that starts at byte 0x0b of the
    boot sector.  The three names that also occur in [struct xfat] carry
    the prefix [bpb_]. *)
Record xfat32_bpb := mk_bpb {
  sector_sz16 : Z;      (* 0x00 *)
  bpb_cluster_sz : Z;   (* 0x02 *)
  nr_reserved : Z;      (* 0x03 *)
  bpb_nr_fats : Z;      (* 0x05 *)
  nr_dirents16 : Z;     (* 0x06 *)
  nr_sectors16 : Z;     (* 0x08 *)
  media_type : Z;       (* 0x0a *)
  fat_size16 : Z;       (* 0x0b *)
  track_size : Z;       (* 0x0d *)
  nr_heads : Z;         (* 0x0f *)
  nr_hidden : Z;        (* 0x11 *)
  bpb_nr_sectors : Z;   (* 0x15 *)
  fat_size : Z;         (* 0x19 *)
  flags : Z;            (* 0x1d *)
  version : Z;          (* 0x1f *)
  cluster_root : Z;     (* 0x21 *)
  fs_info : Z;          (* 0x25 *)
  boot_sector : Z       (* 0x27 *)
}.

Definition empty_bpb : xfat32_bpb :=
  mk_bpb 0 0 0 0 0 0 0 0 0 0 0 0 0 0 0 0 0 0.

(** [struct xfat32_dentry]: 32 bytes, disk layout = memory layout. *)
Record xfat32_dentry := mk_dentry {
  file_name : list Z;
  file_ext : list Z;
  file_attr : Z;
  attr0 : Z;
  attr1 : Z;
  ctime : Z;
  cdate : Z;
  adate : Z;
  clust_hi : Z;
  mtime : Z;
  mdate : Z;
  clust_lo : Z;
  file_size : Z
}.

(** ** Storage provider, context and machine state *)

(** [struct xfat_storage_provider].  [Dev] is the state of the device
    behind the callbacks.  A pointer to the struct is the struct together
    with [host_addr], the address it lives at.
    [read_sectors dev m host buffer sector nr] takes the two pointers in
    the order of the declaration [(host, buffer, sector, nr)] and returns
    the status, the memory after the transfer and the new device state;
    where it writes, and what it leaves behind when it fails, is up to
    the provider.  The callbacks themselves are not kept in [mem]: a
    transfer that lands on the struct shows in memory only. *)
Record xfat_storage_provider (Dev : Type) := mk_provider {
  host_addr : Z;
  host_buffer : Z;
  open : Dev -> Z -> Z * Dev;
  read_sectors : Dev -> mem -> Z -> Z -> Z -> Z -> Z * mem * Dev;
  close : Dev -> Dev
}.
Arguments mk_provider {Dev}.
Arguments host_addr {Dev}.
Arguments host_buffer {Dev}.
Arguments open {Dev}.
Arguments read_sectors {Dev}.
Arguments close {Dev}.

(** [struct xfat], with the [bpb] member that [read_bpb] takes the
    address of. *)
Record xfat (Dev : Type) := mk_xfat {
  slba : Z;
  elba : Z;
  host : xfat_storage_provider Dev;
  buffer : Z;
  cur_sector : Z;       (* sector number currently buffer holds *)
  bpb : xfat32_bpb;
  root_cluster : Z;
  cluster_sz : Z;
  cluster_begins : Z;
  nr_fats : Z;
  data_sector : Z;
  nr_sectors : Z;
  sz_fat : Z
}.
Arguments mk_xfat {Dev}.
Arguments slba {Dev}.
Arguments elba {Dev}.
Arguments host {Dev}.
Arguments buffer {Dev}.
Arguments cur_sector {Dev}.
Arguments bpb {Dev}.
Arguments root_cluster {Dev}.
Arguments cluster_sz {Dev}.
Arguments cluster_begins {Dev}.
Arguments nr_fats {Dev}.
Arguments data_sector {Dev}.
Arguments nr_sectors {Dev}.
Arguments sz_fat {Dev}.

(** The fields of the context that are filled "from FAT32 BPB". *)
Definition geometry {Dev} (x : xfat Dev) : list Z :=
  [root_cluster x; cluster_sz x; cluster_begins x; nr_fats x;
   data_sector x; nr_sectors x; sz_fat x].

Definition set_cur_sector {Dev} (x : xfat Dev) (v : Z) : xfat Dev :=
  mk_xfat (slba x) (elba x) (host x) (buffer x) v (bpb x)
          (root_cluster x) (cluster_sz x) (cluster_begins x) (nr_fats x)
          (data_sector x) (nr_sectors x) (sz_fat x).

Definition set_bpb {Dev} (x : xfat Dev) (b : xfat32_bpb) : xfat Dev :=
  mk_xfat (slba x) (elba x) (host x) (buffer x) (cur_sector x) b
          (root_cluster x) (cluster_sz x) (cluster_begins x) (nr_fats x)
          (data_sector x) (nr_sectors x) (sz_fat x).

Definition set_host {Dev} (x : xfat Dev) (h : xfat_storage_provider Dev)
  : xfat Dev :=
  mk_xfat (slba x) (elba x) h (buffer x) (cur_sector x) (bpb x)
          (root_cluster x) (cluster_sz x) (cluster_begins x) (nr_fats x)
          (data_sector x) (nr_sectors x) (sz_fat x).

Definition set_buffer {Dev} (x : xfat Dev) (b : Z) : xfat Dev :=
  mk_xfat (slba x) (elba x) (host x) b (cur_sector x) (bpb x)
          (root_cluster x) (cluster_sz x) (cluster_begins x) (nr_fats x)
          (data_sector x) (nr_sectors x) (sz_fat x).

(** The whole state a function of the file can see or change: the global
    context, memory, the device, and the log of provider reads issued so
    far as (sector, count) pairs. *)
Record machine (Dev : Type) := mk_machine {
  ctx : xfat Dev;
  ram : mem;
  device : Dev;
  io_log : list (Z * Z)
}.
Arguments mk_machine {Dev}.
Arguments ctx {Dev}.
Arguments ram {Dev}.
Arguments device {Dev}.
Arguments io_log {Dev}.

Definition with_ctx {Dev} (m : machine Dev) (x : xfat Dev) : machine Dev :=
  mk_machine x (ram m) (device m) (io_log m).

(** What an [int] function hands back: a value, or nothing when control
    reaches the closing brace without a [return]. *)
Inductive outcome : Type :=
| Ret (v : Z)
| NoValue.

(** One call [host->read_sectors(p1, p2, sector, nr)] through the host of
    the context, logged; [p1] and [p2] are the two pointer arguments in
    the order the call site writes them. *)
Definition provider_read {Dev} (m : machine Dev) (p1 p2 sector nr : Z)
  : machine Dev * Z :=
  let x := ctx m in
  let '(ret, ram', dev') :=
    read_sectors (host x) (device m) (ram m) p1 p2 sector nr in
  (mk_machine x ram' dev' (io_log m ++ [(sector, nr)]), ret).

(** ** Boot sector *)

Definition bytes_of_string (s : string) : list Z :=
  map (fun c => Z.of_N (N_of_ascii c)) (list_ascii_of_string s).

(** [memcmp] against a literal: the difference of the first pair of
    bytes that differ, 0 when there is none. *)
Fixpoint memcmp (m : mem) (a : Z) (bs : list Z) : Z :=
  match bs with
  | [] => 0
  | b :: bs' =>
      let d := load8 m a - b in
      if d =? 0 then memcmp m (a + 1) bs' else d
  end.

(** [(int)] of a [uint32_t]. *)
Definition to_int (v : Z) : Z := if v <? 2 ^ 31 then v else v - 2 ^ 32.

(** [((struct xfat32_bpb * )0)->member]: the member, of [size] bytes at
    [member_offset] in the packed struct, of a block placed at address
    0.  Memory is flat, so this is an ordinary little-endian load from a
    low address; on a target where that page is not mapped the access
    traps, which the model does not represent. *)
Definition null_member (m : mem) (member_offset size : Z) : Z :=
  if size =? 4 then load32 m (0 + member_offset)
  else if size =? 2 then load16 m (0 + member_offset)
  else load8 m (0 + member_offset).

(** [read_bpb_unit(bpb, member, buf)] as the macro is written:
    [read_unaligned(&bpb->member, buf,
                    (int)(((struct xfat32_bpb * )0)->member),
                    sizeof(bpb->member))].
    The offset handed to [read_unaligned] is the value of the member in
    the block at address 0, not the member's offset. *)
Definition read_bpb_unit (m : mem) (buf member_offset size : Z) : Z :=
  let offset :=
    if size =? 4 then to_int (null_member m member_offset size)
    else null_member m member_offset size in
  read_unaligned m buf offset size.

(** The eighteen [read_bpb_unit] lines of [read_bpb].  The source names
    [sector_sz] and [nr_dirents] stand for the members at 0x00 and
    0x06. *)
Definition decode_bpb (m : mem) (ptr : Z) : xfat32_bpb :=
  {| sector_sz16 := read_bpb_unit m ptr 0x00 2;
     bpb_cluster_sz := read_bpb_unit m ptr 0x02 1;
     nr_reserved := read_bpb_unit m ptr 0x03 2;
     bpb_nr_fats := read_bpb_unit m ptr 0x05 1;
     nr_dirents16 := read_bpb_unit m ptr 0x06 2;
     nr_sectors16 := read_bpb_unit m ptr 0x08 2;
     media_type := read_bpb_unit m ptr 0x0a 1;
     fat_size16 := read_bpb_unit m ptr 0x0b 2;
     track_size := read_bpb_unit m ptr 0x0d 2;
     nr_heads := read_bpb_unit m ptr 0x0f 2;
     nr_hidden := read_bpb_unit m ptr 0x11 4;
     bpb_nr_sectors := read_bpb_unit m ptr 0x15 4;
     fat_size := read_bpb_unit m ptr 0x19 4;
     flags := read_bpb_unit m ptr 0x1d 2;
     version := read_bpb_unit m ptr 0x1f 2;
     cluster_root := read_bpb_unit m ptr 0x21 4;
     fs_info := read_bpb_unit m ptr 0x25 2;
     boot_sector := read_bpb_unit m ptr 0x27 2 |}.

(** The chain of checks of [read_bpb] on the decoded block; the result is
    the function's return value. *)
Definition validate_bpb (m : mem) (buf : Z) (b : xfat32_bpb) : Z :=
  if negb (read_half m buf 0x1fe =? 0x55aa) then -1
  else if negb (memcmp m (buf + 0x52) (bytes_of_string "FAT32") =? 0) then -1
  else if negb (is_power_of_2 (sector_sz16 b) =? 512) then -1
  else if is_power_of_2 (bpb_cluster_sz b) =? 0 then -1
  else if nr_reserved b <? 1 then -1
  else if negb (bpb_nr_fats b =? 1) && negb (bpb_nr_fats b =? 2) then -1
  else if media_type b <? 0xe5 then -1
  else if fat_size b =? 0 then -1
  else 0.

(** [read_bpb].  The call is [host->read_sectors(xfat.buffer, host, 0, 1)]:
    the buffer comes first and the host second, the reverse of the
    declared order, and [host], which the function does not declare, is
    the host of the context.  The block is then decoded from
    [xfat.buffer + 0x0b] into [xfat.bpb] and validated. *)
Definition read_bpb {Dev} (m : machine Dev) : machine Dev * Z :=
  let '(m1, ret) :=
    provider_read m (buffer (ctx m)) (host_addr (host (ctx m))) 0 1 in
  if ret <? 0 then (m1, ret)
  else
    let buf := buffer (ctx m1) in
    let ptr := buf + 0x0b in
    let b := decode_bpb (ram m1) ptr in
    let m2 := with_ctx m1 (set_bpb (ctx m1) b) in
    (m2, validate_bpb (ram m2) buf b).

(** [xfat_init]: record the host and its buffer, read the boot sector.
    The parameters [lba] and [nr_sectors] are not used, and the function
    ends after the error check without a [return]. *)
Definition xfat_init {Dev} (m : machine Dev) (lba nr_sectors : Z)
           (h : xfat_storage_provider Dev) : machine Dev * outcome :=
  let x1 := set_buffer (set_host (ctx m) h) (host_buffer h) in
  let '(m', ret) := read_bpb (with_ctx m x1) in
  if ret <? 0 then (m', Ret ret) else (m', NoValue).

(** ** Paths and clusters *)

Definition NUL : ascii := "000"%char.
Definition SLASH : ascii := "/"%char.
Definition BACKSLASH : ascii := "092"%char.

(** [is_delimeter]: [return !!(c == '/' || c == '\\');] *)
Definition is_delimeter (c : ascii) : Z :=
  if Ascii.eqb c SLASH || Ascii.eqb c BACKSLASH then 1 else 0.

(** [valid_cluster]: [return !!(clust >= 2 && clust <= 0xffffff], the
    line as it stands in the source. *)
Definition valid_cluster (clust : Z) : Z :=
  if (2 <=? clust) && (clust <=? 0xffffff) then 1 else 0.

(** A [const char *] into the path is the list of characters from the
    pointer on; the terminating NUL follows the last element. *)
Definition deref (s : list ascii) : ascii :=
  match s with
  | [] => NUL
  | c :: _ => c
  end.

Definition truthy (c : ascii) : bool := negb (Ascii.eqb c NUL).

(** [while ( *s && is_delimeter( *s)) s++;] *)
Fixpoint skip_delimeters (s : list ascii) : list ascii :=
  match s with
  | [] => s
  | c :: s' =>
      if truthy c && negb (is_delimeter c =? 0) then skip_delimeters s' else s
  end.

(** [e = s; while ( *e && !is_delimeter( *e)) e++;] *)
Fixpoint scan_component (e : list ascii) : list ascii :=
  match e with
  | [] => e
  | c :: e' =>
      if truthy c && (is_delimeter c =? 0) then scan_component e' else e
  end.

(** [struct diter]. *)
Record diter := mk_diter {
  it_cluster : Z;
  it_sector : Z
}.

Section Resolver.

Context {Dev : Type}.

(** [fat_entry] is called by [get_dentry] and defined nowhere; it is a
    parameter that may read through the cache and returns an [int]. *)
Variable fat_entry : machine Dev -> Z -> machine Dev * Z.

(** [lba] is the identifier [read_sector] passes to the provider; it is
    declared nowhere, so the sector number that reaches the provider is
    a parameter of the context and of the requested sector. *)
Variable lba : xfat Dev -> Z -> Z.

(** [read_sector]: the single-sector cache in front of the provider.
    The call is [host->read_sectors(xgpt.host, xgpt.buffer, lba, 1)];
    [xgpt] is not declared either, and its host and buffer are those of
    [xfat]. *)
Definition read_sector (m : machine Dev) (sector : Z) : machine Dev * Z :=
  if negb (cur_sector (ctx m) =? sector) then
    let '(m1, ret) :=
      provider_read m (host_addr (host (ctx m))) (buffer (ctx m))
                    (lba (ctx m) sector) 1 in
    if ret <? 0 then (m1, -1)
    else (with_ctx m1 (set_cur_sector (ctx m1) sector), 0)
  else (m, 0).

(** The [while (1)] loop of [get_dentry], one iteration per unit of
    fuel.  The text of the loop body stops inside the lookup block:
    [next_cluster] is computed and nothing follows, so neither [s]
    nor [iter] changes and [*d] is not written. *)
Fixpoint get_dentry_loop (fuel : nat) (m : machine Dev) (iter : diter)
         (cluster : Z) (s : list ascii) (d : xfat32_dentry)
  : option (machine Dev * Z * xfat32_dentry) :=
  match fuel with
  | O => None
  | S fuel' =>
      let s1 := skip_delimeters s in
      if negb (truthy (deref s1)) then Some (m, -1, d)
      else
        let e := scan_component s1 in
        let m' :=
          if cluster_sz (ctx m) <=? it_sector iter
          then fst (fat_entry m cluster)
          else m in
        get_dentry_loop fuel' m' iter cluster s1 d
  end.

(** [get_dentry]: [None] is "still looping when the fuel ran out";
    otherwise the state, the return value and the contents of [*d]. *)
Definition get_dentry (fuel : nat) (m : machine Dev)
           (filepath : list ascii) (d : xfat32_dentry)
  : option (machine Dev * Z * xfat32_dentry) :=
  let iter := mk_diter (u32 (root_cluster (ctx m))) (-1) in
  let cluster := root_cluster (ctx m) in
  get_dentry_loop fuel m iter cluster filepath d.

(** [xfat_readfile]; [d] is the indeterminate initial contents of the
    local dentry.  After the error check the function ends. *)
Definition xfat_readfile (fuel : nat) (m : machine Dev)
           (filepath : list ascii) (buf offset size : Z)
           (d : xfat32_dentry)
  : option (machine Dev * outcome) :=
  match get_dentry fuel m filepath d with
  | None => None
  | Some (m', ret, _) =>
      if ret <? 0 then Some (m', Ret (-1)) else Some (m', NoValue)
  end.

End Resolver.

(** ** The specification's reading of the boot sector

    These predicates follow the specification's list of mount conditions
    and look at the bytes of the sector with [le16_at], [le32_at] and
    [load8] only; they do not go through the readers of the code. *)

Definition spec_power_of_two (v : Z) : bool :=
  existsb (fun k => v =? 2 ^ k) [0; 1; 2; 3; 4; 5; 6; 7].

Fixpoint bytes_at (m : mem) (a : Z) (n : nat) : list Z :=
  match n with
  | O => []
  | S n' => load8 m a :: bytes_at m (a + 1) n'
  end.

Fixpoint bytes_eqb (l1 l2 : list Z) : bool :=
  match l1, l2 with
  | [], [] => true
  | a :: l1', b :: l2' => (a =? b) && bytes_eqb l1' l2'
  | _, _ => false
  end.

Definition wrong_signature (m : mem) (buf : Z) : bool :=
  negb (le16_at m (buf + 0x1fe) =? 0x55aa).

Definition wrong_label (m : mem) (buf : Z) : bool :=
  negb (bytes_eqb (bytes_at m (buf + 0x52) 5) (bytes_of_string "FAT32")).

Definition wrong_sector_size (m : mem) (buf : Z) : bool :=
  negb (le16_at m (buf + 0x0b) =? 512).

Definition cluster_size_not_power_of_two (m : mem) (buf : Z) : bool :=
  negb (spec_power_of_two (load8 m (buf + 0x0d))).

Definition fat_count_out_of_range (m : mem) (buf : Z) : bool :=
  negb (load8 m (buf + 0x10) =? 1) && negb (load8 m (buf + 0x10) =? 2).


(** A well-formed FAT32 boot sector with 512-byte sectors. *)
Definition spec_well_formed (m : mem) (buf : Z) : bool :=
  negb (wrong_signature m buf)
  && negb (wrong_label m buf)
  && negb (wrong_sector_size m buf)
  && negb (cluster_size_not_power_of_two m buf)
  && (1 <=? le16_at m (buf + 0x0e))
  && negb (fat_count_out_of_range m buf)
  && (0xe5 <=? load8 m (buf + 0x15))
  && negb (le32_at m (buf + 0x24) =? 0).

(** [data_region_start = reserved_sector_count + fat_count * sectors_per_fat]. *)
Definition spec_data_region_start (m : mem) (buf : Z) : Z :=
  le16_at m (buf + 0x0e) + load8 m (buf + 0x10) * le32_at m (buf + 0x24).

(** What the provider [h] returns for the call of [read_bpb] in state
    [m]: the host buffer first, the host second, sector 0, one sector. *)
Definition boot_read {Dev} (m : machine Dev) (h : xfat_storage_provider Dev)
  : Z * mem * Dev :=
  read_sectors h (device m) (ram m) (host_buffer h) (host_addr h) 0 1.

(** ** Example volumes *)

Definition BUF : Z := 0x1000.
Definition HOST : Z := 0x2000.

Definition patch (l : list Z) (off : nat) (bs : list Z) : list Z :=
  firstn off l ++ bs ++ skipn (off + List.length bs) l.

(** Bytes 0x0b .. 0x33 of a boot sector: 512-byte sectors, 8 sectors per
    cluster, 32 reserved sectors, 2 FATs, media 0xf8, 0x100000 sectors,
    1000 sectors per FAT, root directory at cluster 2. *)
Definition bpb_bytes : list Z :=
  [0x00; 0x02; 0x08; 0x20; 0x00; 0x02; 0x00; 0x00; 0x00; 0x00; 0xf8;
   0x00; 0x00; 0x3f; 0x00; 0xff; 0x00; 0x00; 0x00; 0x00; 0x00;
   0x00; 0x00; 0x10; 0x00; 0xe8; 0x03; 0x00; 0x00; 0x00; 0x00; 0x00; 0x00;
   0x02; 0x00; 0x00; 0x00; 0x01; 0x00; 0x06; 0x00].

(** The boot sector with the two signature bytes [sig] at 0x1fe. *)
Definition boot_image (sig : list Z) : list Z :=
  patch (patch (patch (repeat 0 512) 0x0b bpb_bytes)
               0x52 (bytes_of_string "FAT32   "))
        0x1fe sig.

(** Signature bytes that the 16-bit read sees as 0x55aa. *)
Definition good_image : list Z := boot_image [0xaa; 0x55].
(** Signature bytes in the order 55 aa. *)
Definition disk_image : list Z := boot_image [0x55; 0xaa].


(** A provider that takes its pointers in the order of the call in
    [read_bpb] and copies [img], for any sector, to the first pointer it
    is handed, so that the mount finds [img] in the host buffer. *)
Definition image_host (img : list Z) : xfat_storage_provider unit :=
  mk_provider HOST BUF
    (fun d _ => (0, d))
    (fun d m p1 _ _ _ => (0, store_bytes m p1 img, d))
    (fun d => d).

(** A provider whose sector [n] is 512 bytes of value [n], and that
    fails on sector [bad] after it has overwritten the head of the
    buffer with 0xff. *)
Definition flaky_host (bad : Z) : xfat_storage_provider unit :=
  mk_provider HOST BUF
    (fun d _ => (0, d))
    (fun d m _ buf sector _ =>
       if sector =? bad
       then (-1, store_bytes m buf (repeat 0xff 16), d)
       else (0, store_bytes m buf (repeat (u8 sector) 512), d))
    (fun d => d).

(** The zero-initialised static context, with a host installed. *)
Definition fresh_xfat (h : xfat_storage_provider unit) : xfat unit :=
  mk_xfat 0 0 h (host_buffer h) 0 empty_bpb 0 0 0 0 0 0 0.

Definition fresh_machine (h : xfat_storage_provider unit) : machine unit :=
  mk_machine (fresh_xfat h) zero_mem tt [].

Definition no_fat_entry (m : machine unit) (cluster : Z) : machine unit * Z :=
  (m, 0).

Definition same_lba (x : xfat unit) (sector : Z) : Z := sector.

Definition empty_dentry : xfat32_dentry :=
  mk_dentry [] [] 0 0 0 0 0 0 0 0 0 0 0.

(** ** The specification's reading of FAT entries *)

Inductive fat_class : Type :=
| FatInvalid        (* 0 free, 1 reserved *)
| FatNormal         (* 2 .. 0x0FFFFFEF *)
| FatBad            (* 0x0FFFFFF7 *)
| FatEndOfChain     (* >= 0x0FFFFFF8 *)
| FatOther.         (* 0x0FFFFFF0 .. 0x0FFFFFF6, not named *)

(** The upper four bits of the 32-bit entry masked off. *)
Definition spec_mask (entry : Z) : Z := Z.land entry 0x0FFFFFFF.

Definition spec_classify (v : Z) : fat_class :=
  if v <=? 1 then FatInvalid
  else if v <=? 0x0FFFFFEF then FatNormal
  else if v =? 0x0FFFFFF7 then FatBad
  else if 0x0FFFFFF8 <=? v then FatEndOfChain
  else FatOther.

Definition only_delimiters (p : list ascii) : bool :=
  forallb (fun c => is_delimeter c =? 1) p.

Definition path (s : string) : list ascii := list_ascii_of_string s.

(** ** Request sequences and well-behaved providers *)

(** The cache after the requests [reqs], served one after the other. *)
Definition read_all {Dev} (lba : xfat Dev -> Z -> Z) (m : machine Dev)
           (reqs : list Z) : machine Dev :=
  fold_left (fun st sector => fst (read_sector lba st sector)) reqs m.

(** The host buffer holds the sector that [cur_sector] names. *)
Definition buffer_holds {Dev} (disk : Z -> list Z) (m : machine Dev) : Prop :=
  bytes_at (ram m) (buffer (ctx m)) 512 = disk (cur_sector (ctx m)).

(** A provider over the read-only volume [disk]: a successful read of one
    sector leaves that sector in the buffer, a failed read leaves the
    buffer as it found it. *)
Definition faithful_provider {Dev} (disk : Z -> list Z)
           (h : xfat_storage_provider Dev) : Prop :=
  forall dev m hp buf sector,
    let r := read_sectors h dev m hp buf sector 1 in
    ((fst (fst r) <? 0) = false -> bytes_at (snd (fst r)) buf 512 = disk sector)
    /\ ((fst (fst r) <? 0) = true ->
        bytes_at (snd (fst r)) buf 512 = bytes_at m buf 512).

(** The volume whose sector [n] is 512 bytes of value [n]. *)
Definition pattern_disk (sector : Z) : list Z := repeat (u8 sector) 512.

(** A provider over [pattern_disk] that fails on sector [bad] without
    touching the buffer. *)
Definition clean_fail_host (bad : Z) : xfat_storage_provider unit :=
  mk_provider HOST BUF
    (fun d _ => (0, d))
    (fun d m _ buf sector _ =>
       if sector =? bad
       then (-1, m, d)
       else (0, store_bytes m buf (pattern_disk sector), d))
    (fun d => d).

(** A character of a path component: neither NUL nor a delimiter. *)
Definition ordinary (c : ascii) : bool :=
  truthy c && (is_delimeter c =? 0).

(** * Theorems *)

Lemma u8_range v : 0 <= u8 v < 2 ^ 8.
Proof. unfold u8. apply Z.mod_pos_bound. lia. Qed.

Lemma load8_range m a : 0 <= load8 m a < 2 ^ 8.
Proof. apply u8_range. Qed.

Lemma lor_shiftl8_range a b :
  0 <= a < 2 ^ 8 -> 0 <= b < 2 ^ 8 -> 0 <= Z.lor a (Z.shiftl b 8) < 2 ^ 16.
Proof.
  intros Ha Hb.
  assert (Hs : 0 <= Z.shiftl b 8 < 2 ^ 16).
  { rewrite Z.shiftl_mul_pow2 by lia. lia. }
  split.
  - apply Z.lor_nonneg. lia.
  - destruct (Z.eq_dec (Z.lor a (Z.shiftl b 8)) 0) as [E | E]; [lia |].
    apply Z.log2_lt_pow2.
    + assert (0 <= Z.lor a (Z.shiftl b 8)) by (apply Z.lor_nonneg; lia). lia.
    + rewrite Z.log2_lor by lia.
      apply Z.max_lub_lt.
      * destruct (Z.eq_dec a 0) as [-> | Na]; [simpl; lia |].
        apply Z.log2_lt_pow2; lia.
      * destruct (Z.eq_dec (Z.shiftl b 8) 0) as [-> | Nb]; [simpl; lia |].
        apply Z.log2_lt_pow2; lia.
Qed.

Lemma load16_range m a : 0 <= load16 m a < 2 ^ 16.
Proof. apply lor_shiftl8_range; apply load8_range. Qed.

Lemma read_half_le16 m buf offset :
  read_half m buf offset = le16_at m (buf + offset).
Proof.
  unfold read_half, le16_at, read_byte.
  pose proof (load8_range m (buf + offset)) as H0.
  pose proof (load8_range m (buf + offset + 1)) as H1.
  pose proof (lor_shiftl8_range _ _ H0 H1) as H.
  replace (buf + (offset + 1)) with (buf + offset + 1) by lia.
  destruct (Z.land (buf + offset) 3 =? 0); cbn [negb].
  - unfold load16, u16. apply Z.mod_small. exact H.
  - assert (Hs : 0 <= Z.shiftl (load8 m (buf + offset + 1)) 8 < 2 ^ 16).
    { rewrite Z.shiftl_mul_pow2 by lia. lia. }
    unfold u16 at 2 3.
    rewrite (Z.mod_small (load8 m (buf + offset))) by lia.
    rewrite (Z.mod_small (Z.shiftl _ 8)) by lia.
    unfold u16. apply Z.mod_small. exact H.
Qed.

Lemma shiftl_high_mod16 b k :
  16 <= k -> Z.shiftl b k mod 2 ^ 16 = 0.
Proof.
  intros Hk.
  rewrite Z.shiftl_mul_pow2 by lia.
  assert (E : 2 ^ k = 2 ^ (k - 16) * 2 ^ 16).
  { rewrite <- Z.pow_add_r by lia. f_equal. lia. }
  rewrite E, Z.mul_assoc.
  apply Z.mod_mul. lia.
Qed.

Lemma lor_high_mod16 a b k :
  0 <= a < 2 ^ 16 -> 16 <= k ->
  (Z.lor a (Z.shiftl b k)) mod 2 ^ 16 = a.
Proof.
  intros Ha Hk.
  rewrite <- Z.land_ones by lia.
  rewrite Z.land_lor_distr_l.
  rewrite !Z.land_ones by lia.
  rewrite (Z.mod_small a) by lia.
  rewrite shiftl_high_mod16 by lia.
  apply Z.lor_0_r.
Qed.

Lemma le16_range m a : 0 <= le16_at m a < 2 ^ 16.
Proof. apply lor_shiftl8_range; apply load8_range. Qed.

Lemma read_word_le16 m buf offset :
  read_word m buf offset = le16_at m (buf + offset).
Proof.
  unfold read_word.
  pose proof (le16_range m (buf + offset)) as H.
  destruct (Z.land (buf + offset) 7 =? 0); cbn [negb].
  - unfold load32, u16.
    pose proof (load8_range m (buf + offset + 2)) as H2.
    pose proof (load8_range m (buf + offset + 3)) as H3.
    rewrite <- Z.land_ones by lia.
    rewrite Z.land_lor_distr_l.
    rewrite !Z.land_ones by lia.
    rewrite lor_high_mod16 by (fold (le16_at m (buf + offset)); lia).
    rewrite shiftl_high_mod16 by lia.
    apply Z.lor_0_r.
  - rewrite read_half_le16.
    unfold u32 at 1.
    rewrite (Z.mod_small (le16_at m (buf + offset))) by lia.
    assert (Hs : 0 <= Z.shiftl (le16_at m (buf + offset)) 16 < 2 ^ 32).
    { rewrite Z.shiftl_mul_pow2 by lia. lia. }
    unfold u32. rewrite (Z.mod_small (Z.shiftl _ 16)) by lia.
    unfold u16. apply lor_high_mod16; lia.
Qed.

(** C3.  [read_half] returns the little-endian 16-bit value at every
    address, aligned or not.  [read_word] does not return the 32-bit
    value: at every address it returns the low 16 bits only, so for the
    bytes 78 56 34 12 it yields 0x5678 where the little-endian word is
    0x12345678, through the direct load (address 0) and through the
    byte-wise branch (address 1) alike. *)
Theorem read_word_drops_high_half :
  (forall m buf offset, read_half m buf offset = le16_at m (buf + offset)) /\
  (forall m buf offset, read_word m buf offset = le16_at m (buf + offset)) /\
  read_word word_mem 0 0 = 0x5678 /\
  le32_at word_mem 0 = 0x12345678 /\
  read_word word_mem_odd 0 1 = 0x5678 /\
  le32_at word_mem_odd 1 = 0x12345678.
Proof.
  split; [exact read_half_le16 |].
  split; [exact read_word_le16 |].
  repeat split; vm_compute; reflexivity.
Qed.

(** ** Mount *)

Lemma is_power_of_2_flag v : is_power_of_2 v = 0 \/ is_power_of_2 v = 1.
Proof.
  unfold is_power_of_2.
  destruct (v =? 0); [left; reflexivity |].
  destruct (Z.land v (u32 (v - 1)) =? 0); [right | left]; reflexivity.
Qed.

Lemma sector_size_check_always_fails v :
  negb (is_power_of_2 v =? 512) = true.
Proof.
  destruct (is_power_of_2_flag v) as [-> | ->]; reflexivity.
Qed.

Lemma validate_bpb_fails m buf b : validate_bpb m buf b = -1.
Proof.
  unfold validate_bpb.
  destruct (negb (read_half m buf 0x1fe =? 0x55aa)); [reflexivity |].
  destruct (negb (memcmp m (buf + 0x52) (bytes_of_string "FAT32") =? 0));
    [reflexivity |].
  rewrite sector_size_check_always_fails. reflexivity.
Qed.

Lemma read_bpb_result {Dev} (m : machine Dev) :
  let '(ret, ram', _) :=
    read_sectors (host (ctx m)) (device m) (ram m) (buffer (ctx m))
                 (host_addr (host (ctx m))) 0 1 in
  snd (read_bpb m) =
  (if ret <? 0 then ret
   else validate_bpb ram' (buffer (ctx m))
                     (decode_bpb ram' (buffer (ctx m) + 0x0b))) /\
  ctx (fst (read_bpb m)) =
  (if ret <? 0 then ctx m
   else set_bpb (ctx m) (decode_bpb ram' (buffer (ctx m) + 0x0b))).
Proof.
  unfold read_bpb, provider_read.
  destruct (read_sectors (host (ctx m)) (device m) (ram m) (buffer (ctx m))
                         (host_addr (host (ctx m))) 0 1)
    as [[ret ram'] dev'].
  destruct (ret <? 0); cbn; split; reflexivity.
Qed.

Lemma xfat_init_steps {Dev} (m : machine Dev) (lba nr : Z)
      (h : xfat_storage_provider Dev) :
  let ret := fst (fst (boot_read m h)) in
  let ram' := snd (fst (boot_read m h)) in
  let x1 := set_buffer (set_host (ctx m) h) (host_buffer h) in
  let b := decode_bpb ram' (host_buffer h + 0x0b) in
  snd (xfat_init m lba nr h) =
  (if ret <? 0 then Ret ret
   else if validate_bpb ram' (host_buffer h) b <? 0
        then Ret (validate_bpb ram' (host_buffer h) b)
        else NoValue) /\
  ctx (fst (xfat_init m lba nr h)) = (if ret <? 0 then x1 else set_bpb x1 b).
Proof.
  cbv zeta. unfold xfat_init, boot_read.
  set (m0 := with_ctx m (set_buffer (set_host (ctx m) h) (host_buffer h))).
  pose proof (read_bpb_result m0) as H.
  change (read_sectors (host (ctx m0)) (device m0) (ram m0) (buffer (ctx m0))
                       (host_addr (host (ctx m0))) 0 1)
    with (read_sectors h (device m) (ram m) (host_buffer h) (host_addr h) 0 1)
    in H.
  change (buffer (ctx m0)) with (host_buffer h) in H.
  change (ctx m0) with (set_buffer (set_host (ctx m) h) (host_buffer h)) in H.
  destruct (read_sectors h (device m) (ram m) (host_buffer h) (host_addr h) 0 1)
    as [[ret ram'] dev'].
  destruct (read_bpb m0) as [m' r]. cbn [fst snd] in *.
  destruct H as (Hr & Hc). subst r.
  destruct (ret <? 0) eqn:E.
  - rewrite E. cbn [fst snd]. split; [reflexivity | exact Hc].
  - destruct (validate_bpb ram' (host_buffer h)
                (decode_bpb ram' (host_buffer h + 11)) <? 0);
      cbn [fst snd]; split; try reflexivity; exact Hc.
Qed.

Lemma xfat_init_result {Dev} (m : machine Dev) (lba nr : Z)
      (h : xfat_storage_provider Dev) :
  let ret := fst (fst (boot_read m h)) in
  snd (xfat_init m lba nr h) = Ret (if ret <? 0 then ret else -1) /\
  geometry (ctx (fst (xfat_init m lba nr h))) = geometry (ctx m) /\
  cur_sector (ctx (fst (xfat_init m lba nr h))) = cur_sector (ctx m).
Proof.
  destruct (xfat_init_steps m lba nr h) as (Hr & Hc).
  cbv zeta in *. rewrite Hr, Hc.
  rewrite validate_bpb_fails. change (-1 <? 0) with true.
  destruct (fst (fst (boot_read m h)) <? 0); repeat split; reflexivity.
Qed.

(** C1.  Mounting never succeeds.  For the well-formed boot sector
    [good_image] (and for the same sector with the signature bytes in the
    order 55 aa) [xfat_init] returns -1 and leaves [data_sector] at 0,
    where the BPB gives 32 + 2 * 1000; and for every state, host and
    device the value returned is negative, because the sector-size check
    compares the 0/1 result of [is_power_of_2] with 512. *)
Theorem xfat_init_rejects_well_formed_boot_sector :
  spec_well_formed (store_bytes zero_mem BUF good_image) BUF = true /\
  snd (xfat_init (fresh_machine (image_host good_image)) 0 0x100000
                 (image_host good_image)) = Ret (-1) /\
  snd (xfat_init (fresh_machine (image_host disk_image)) 0 0x100000
                 (image_host disk_image)) = Ret (-1) /\
  spec_data_region_start (store_bytes zero_mem BUF good_image) BUF = 2032 /\
  data_sector (ctx (fst (xfat_init (fresh_machine (image_host good_image))
                                   0 0x100000 (image_host good_image)))) = 0 /\
  (forall Dev (m : machine Dev) lba nr h,
      exists v, snd (xfat_init m lba nr h) = Ret v /\ v < 0).
Proof.
  split; [vm_compute; reflexivity |].
  split; [vm_compute; reflexivity |].
  split; [vm_compute; reflexivity |].
  split; [vm_compute; reflexivity |].
  split; [vm_compute; reflexivity |].
  intros Dev m lba nr h.
  destruct (xfat_init_result m lba nr h) as (Hr & _).
  cbv zeta in Hr. rewrite Hr.
  destruct (fst (fst (boot_read m h)) <? 0) eqn:E.
  - eexists. split; [reflexivity |]. apply Z.ltb_lt. exact E.
  - exists (-1). split; [reflexivity | lia].
Qed.








(** ** Sector cache *)

Section CacheFacts.

Context {Dev : Type}.
Variable lba : xfat Dev -> Z -> Z.

(** A request for the cached sector changes nothing and logs no read. *)
Lemma read_sector_hit (m : machine Dev) :
  read_sector lba m (cur_sector (ctx m)) = (m, 0).
Proof.
  unfold read_sector. rewrite Z.eqb_refl. reflexivity.
Qed.

(** A request for another sector logs exactly one read of one sector. *)
Lemma read_sector_miss_reads_once (m : machine Dev) (sector : Z) :
  cur_sector (ctx m) <> sector ->
  io_log (fst (read_sector lba m sector)) =
  io_log m ++ [(lba (ctx m) sector, 1)].
Proof.
  intros Hne. unfold read_sector, provider_read.
  apply Z.eqb_neq in Hne. rewrite Hne. cbn [negb].
  destruct (read_sectors (host (ctx m)) (device m) (ram m)
                         (host_addr (host (ctx m))) (buffer (ctx m))
                         (lba (ctx m) sector) 1) as [[ret ram'] dev'].
  destruct (ret <? 0); reflexivity.
Qed.

(** The cached index after a miss: the new sector when the provider
    succeeded, the old index when it failed. *)
Lemma read_sector_miss_index (m : machine Dev) (sector : Z) :
  cur_sector (ctx m) <> sector ->
  let ret := fst (fst (read_sectors (host (ctx m)) (device m) (ram m)
                                    (host_addr (host (ctx m)))
                                    (buffer (ctx m))
                                    (lba (ctx m) sector) 1)) in
  read_sector lba m sector =
  (fst (read_sector lba m sector), if ret <? 0 then -1 else 0) /\
  cur_sector (ctx (fst (read_sector lba m sector))) =
  (if ret <? 0 then cur_sector (ctx m) else sector).
Proof.
  intros Hne. unfold read_sector, provider_read.
  apply Z.eqb_neq in Hne. rewrite Hne. cbn [negb].
  destruct (read_sectors (host (ctx m)) (device m) (ram m)
                         (host_addr (host (ctx m))) (buffer (ctx m))
                         (lba (ctx m) sector) 1) as [[ret ram'] dev'].
  cbn [fst snd]. destruct (ret <? 0); split; reflexivity.
Qed.

End CacheFacts.

(** C4.  A failed provider read leaves the cached index as it was.  On a
    device whose sector 5 fails after the transfer has started: reading
    sector 3 succeeds with one provider read; reading sector 5 returns
    -1 after one provider read and the cached index is still 3 although
    the buffer now starts with 0xff; reading sector 3 again returns 0
    with no provider read and hands out that buffer, whose first byte is
    not the 3 that sector 3 holds. *)
Theorem read_sector_failure_keeps_stale_index :
  let m0 := fresh_machine (flaky_host 5) in
  let '(m1, r1) := read_sector same_lba m0 3 in
  let '(m2, r2) := read_sector same_lba m1 5 in
  let '(m3, r3) := read_sector same_lba m2 3 in
  r1 = 0 /\ cur_sector (ctx m1) = 3 /\ io_log m1 = [(3, 1)] /\
  load8 (ram m1) BUF = 3 /\
  r2 = -1 /\ cur_sector (ctx m2) = 3 /\ io_log m2 = [(3, 1); (5, 1)] /\
  r3 = 0 /\ cur_sector (ctx m3) = 3 /\ io_log m3 = [(3, 1); (5, 1)] /\
  load8 (ram m3) BUF = 0xff.
Proof.
  vm_compute. repeat split; reflexivity.
Qed.

(** ** Clusters *)

Lemma valid_cluster_range clust :
  valid_cluster clust = 1 <-> 2 <= clust <= 0xffffff.
Proof.
  unfold valid_cluster.
  destruct (2 <=? clust) eqn:E1; destruct (clust <=? 0xffffff) eqn:E2;
    cbn [andb]; split; intros H; try discriminate; try reflexivity;
    try (apply Z.leb_le in E1); try (apply Z.leb_le in E2);
    try (apply Z.leb_gt in E1); try (apply Z.leb_gt in E2); lia.
Qed.

(** C6.  [valid_cluster] accepts 2 .. 0xffffff only.  The entry
    0x01000000 is a normal next cluster in the specification's
    classification and is rejected by the code, as is the largest normal
    cluster 0x0FFFFFEF; a bad-cluster mark and an end-of-chain mark get
    the same answer, and no mask is applied: with the reserved upper bits
    set, cluster 2 is rejected. *)
Theorem valid_cluster_rejects_normal_clusters :
  (forall clust, valid_cluster clust = 1 <-> 2 <= clust <= 0xffffff) /\
  spec_classify (spec_mask 0x01000000) = FatNormal /\
  valid_cluster 0x01000000 = 0 /\
  spec_classify (spec_mask 0x0FFFFFEF) = FatNormal /\
  valid_cluster 0x0FFFFFEF = 0 /\
  spec_classify (spec_mask 0x0FFFFFF7) = FatBad /\
  spec_classify (spec_mask 0x0FFFFFF8) = FatEndOfChain /\
  valid_cluster 0x0FFFFFF7 = valid_cluster 0x0FFFFFF8 /\
  spec_classify (spec_mask 0xF0000002) = FatNormal /\
  valid_cluster 0xF0000002 = 0.
Proof.
  split; [exact valid_cluster_range |].
  repeat split; vm_compute; reflexivity.
Qed.

(** ** Path resolution *)

Lemma skip_delimeters_idempotent s :
  skip_delimeters (skip_delimeters s) = skip_delimeters s.
Proof.
  induction s as [| c s IH]; [reflexivity |].
  cbn [skip_delimeters].
  destruct (truthy c && negb (is_delimeter c =? 0)) eqn:E.
  - exact IH.
  - cbn [skip_delimeters]. rewrite E. reflexivity.
Qed.

Lemma is_delimeter_flag c : is_delimeter c = 0 \/ is_delimeter c = 1.
Proof.
  unfold is_delimeter.
  destruct (Ascii.eqb c SLASH || Ascii.eqb c BACKSLASH); [right | left];
    reflexivity.
Qed.

Lemma delimiter_is_truthy c : is_delimeter c = 1 -> truthy c = true.
Proof.
  unfold is_delimeter, truthy.
  destruct (Ascii.eqb c NUL) eqn:E; [| reflexivity].
  apply Ascii.eqb_eq in E. subst c. vm_compute. discriminate.
Qed.

Lemma skip_delimeters_app ds rest :
  only_delimiters ds = true ->
  skip_delimeters (ds ++ rest) = skip_delimeters rest.
Proof.
  unfold only_delimiters.
  induction ds as [| c ds IH]; intros H; [reflexivity |].
  cbn [forallb] in H. apply andb_prop in H. destruct H as [Hc Hds].
  apply Z.eqb_eq in Hc.
  cbn [app skip_delimeters].
  rewrite (delimiter_is_truthy c Hc), Hc. cbn.
  apply IH. exact Hds.
Qed.

Lemma skip_delimeters_all ds :
  only_delimiters ds = true -> skip_delimeters ds = [].
Proof.
  intros H.
  rewrite <- (app_nil_r ds) at 1.
  rewrite skip_delimeters_app by exact H. reflexivity.
Qed.

Section ResolverFacts.

Context {Dev : Type}.
Variable fat_entry : machine Dev -> Z -> machine Dev * Z.

(** Once the pointer rests on a component the loop never leaves it. *)
Lemma get_dentry_loop_stuck fuel :
  forall (m : machine Dev) iter cluster s d,
    truthy (deref (skip_delimeters s)) = true ->
    get_dentry_loop fat_entry fuel m iter cluster s d = None.
Proof.
  induction fuel as [| fuel IH]; intros m iter cluster s d H;
    [reflexivity |].
  cbn [get_dentry_loop]. rewrite H. cbn [negb].
  apply IH. rewrite skip_delimeters_idempotent. exact H.
Qed.

(** The only way out of the loop is the [return -1] of its first
    iteration, before anything has been touched. *)
Lemma get_dentry_loop_returns fuel (m : machine Dev) iter cluster s d :
  get_dentry_loop fat_entry fuel m iter cluster s d = None \/
  get_dentry_loop fat_entry fuel m iter cluster s d = Some (m, -1, d).
Proof.
  destruct fuel as [| fuel]; [left; reflexivity |].
  cbn [get_dentry_loop].
  destruct (truthy (deref (skip_delimeters s))) eqn:E; cbn [negb].
  - left. apply get_dentry_loop_stuck.
    rewrite skip_delimeters_idempotent. exact E.
  - right. reflexivity.
Qed.

Lemma get_dentry_returns fuel (m : machine Dev) p d :
  get_dentry fat_entry fuel m p d = None \/
  get_dentry fat_entry fuel m p d = Some (m, -1, d).
Proof. apply get_dentry_loop_returns. Qed.

Lemma get_dentry_component_diverges fuel (m : machine Dev) p d :
  truthy (deref (skip_delimeters p)) = true ->
  get_dentry fat_entry fuel m p d = None.
Proof. intros H. apply get_dentry_loop_stuck. exact H. Qed.

Lemma get_dentry_loop_skips fuel (m : machine Dev) iter cluster ds rest d :
  only_delimiters ds = true ->
  get_dentry_loop fat_entry fuel m iter cluster (ds ++ rest) d =
  get_dentry_loop fat_entry fuel m iter cluster rest d.
Proof.
  intros H. destruct fuel as [| fuel]; [reflexivity |].
  cbn [get_dentry_loop].
  rewrite (skip_delimeters_app ds rest H). reflexivity.
Qed.

End ResolverFacts.

(** C5.  [xfat_readfile] has no range check and no result on the path
    where resolution succeeds.  On the request for 10 bytes at offset 0
    of [/HELLO.TXT] it never returns, whatever the volume holds and
    however long it runs; and on every request it either never returns
    or returns -1 with the state untouched. *)
Theorem xfat_readfile_never_reports_out_of_range :
  forall Dev (fat_entry : machine Dev -> Z -> machine Dev * Z)
         (m : machine Dev) (d : xfat32_dentry),
    (forall fuel buf,
        xfat_readfile fat_entry fuel m (path "/HELLO.TXT") buf 0 10 d = None) /\
    (forall fuel p buf offset size,
        xfat_readfile fat_entry fuel m p buf offset size d = None \/
        xfat_readfile fat_entry fuel m p buf offset size d =
        Some (m, Ret (-1))).
Proof.
  intros Dev fat_entry m d. split.
  - intros fuel buf. unfold xfat_readfile.
    rewrite get_dentry_component_diverges by reflexivity. reflexivity.
  - intros fuel p buf offset size. unfold xfat_readfile.
    destruct (get_dentry_returns fat_entry fuel m p d) as [-> | ->];
      [left | right]; reflexivity.
Qed.

(** C8.  Neither spelling of the path resolves to anything: for
    [/DIR/FILE.TXT] and for [/dir/file.txt], on every volume and for
    every number of iterations, [get_dentry] has produced neither an
    entry nor an error, so there is no entry (and no error) that the two
    resolutions have in common.  No name is compared anywhere in the
    loop. *)
Theorem get_dentry_resolves_neither_case :
  forall Dev (fat_entry : machine Dev -> Z -> machine Dev * Z)
         (m : machine Dev) (d : xfat32_dentry),
    (forall fuel,
        get_dentry fat_entry fuel m (path "/DIR/FILE.TXT") d = None) /\
    (forall fuel,
        get_dentry fat_entry fuel m (path "/dir/file.txt") d = None) /\
    ~ (exists fuel r,
          get_dentry fat_entry fuel m (path "/DIR/FILE.TXT") d = Some r /\
          get_dentry fat_entry fuel m (path "/dir/file.txt") d = Some r).
Proof.
  intros Dev fat_entry m d.
  assert (H1 : forall fuel,
             get_dentry fat_entry fuel m (path "/DIR/FILE.TXT") d = None)
    by (intros fuel; apply get_dentry_component_diverges; reflexivity).
  assert (H2 : forall fuel,
             get_dentry fat_entry fuel m (path "/dir/file.txt") d = None)
    by (intros fuel; apply get_dentry_component_diverges; reflexivity).
  split; [exact H1 |]. split; [exact H2 |].
  intros (fuel & r & E & _). rewrite H1 in E. discriminate E.
Qed.

(** C9.  Resolution of a path that names a component does not
    terminate: for [/A], on every volume (one whose FAT holds a cycle
    included) and for every number of iterations, [get_dentry] is still
    in its loop, and so is [xfat_readfile]. *)
Theorem get_dentry_loops_forever :
  forall Dev (fat_entry : machine Dev -> Z -> machine Dev * Z)
         (fuel : nat) (m : machine Dev) (d : xfat32_dentry),
    get_dentry fat_entry fuel m (path "/A") d = None /\
    (forall buf offset size,
        xfat_readfile fat_entry fuel m (path "/A") buf offset size d = None).
Proof.
  intros Dev fat_entry fuel m d.
  assert (H : get_dentry fat_entry fuel m (path "/A") d = None)
    by (apply get_dentry_component_diverges; reflexivity).
  split; [exact H |].
  intros buf offset size. unfold xfat_readfile. rewrite H. reflexivity.
Qed.

(** C10.  On a path that is empty or made of delimiters only,
    [get_dentry] returns -1 in its first iteration, with the state and
    [*d] untouched; and delimiters in front of the rest of a path are
    skipped: they change neither where the component scan starts nor the
    result. *)
Theorem get_dentry_delimiters_only :
  forall Dev (fat_entry : machine Dev -> Z -> machine Dev * Z)
         (fuel : nat) (m : machine Dev) (ds rest : list ascii)
         (d : xfat32_dentry),
    only_delimiters ds = true ->
    get_dentry fat_entry (S fuel) m ds d = Some (m, -1, d) /\
    skip_delimeters (ds ++ rest) = skip_delimeters rest /\
    get_dentry fat_entry fuel m (ds ++ rest) d =
    get_dentry fat_entry fuel m rest d.
Proof.
  intros Dev fat_entry fuel m ds rest d H.
  split; [| split].
  - unfold get_dentry. cbn [get_dentry_loop].
    rewrite (skip_delimeters_all ds H). reflexivity.
  - apply skip_delimeters_app. exact H.
  - unfold get_dentry. apply get_dentry_loop_skips. exact H.
Qed.

Lemma get_dentry_delimiters_only_witness :
  only_delimiters [SLASH; BACKSLASH; SLASH] = true /\
  get_dentry no_fat_entry 1 (fresh_machine (image_host good_image))
             [SLASH; BACKSLASH; SLASH] empty_dentry =
  Some (fresh_machine (image_host good_image), -1, empty_dentry) /\
  skip_delimeters ([SLASH; BACKSLASH; SLASH] ++ path "A/B") = path "A/B".
Proof.
  split; [reflexivity |].
  destruct (get_dentry_delimiters_only unit no_fat_entry 0
              (fresh_machine (image_host good_image))
              [SLASH; BACKSLASH; SLASH] (path "A/B") empty_dentry)
    as (H1 & H2 & _); [reflexivity |].
  split; [exact H1 | exact H2].
Defined.

(** * Further properties of the code *)

(** ** Readers *)

(** X1.  On a 32-bit value [is_power_of_2] answers 1 exactly for the
    powers of two 2^0 .. 2^31, and 0 for everything else, zero included. *)
Theorem is_power_of_2_iff :
  forall v, 0 <= v < 2 ^ 32 ->
            (is_power_of_2 v = 1 <-> exists k, 0 <= k < 32 /\ v = 2 ^ k).
Proof.
  intros v Hv. unfold is_power_of_2.
  destruct (v =? 0) eqn:E0.
  - apply Z.eqb_eq in E0. subst v. split; [discriminate |].
    intros (k & Hk & Hp).
    assert (0 < 2 ^ k) by (apply Z.pow_pos_nonneg; lia). lia.
  - apply Z.eqb_neq in E0.
    unfold u32. rewrite (Z.mod_small (v - 1)) by lia.
    pose proof (Z.log2_spec v ltac:(lia)) as Hlog.
    pose proof (Z.log2_nonneg v) as Hk0.
    destruct (Z.land v (v - 1) =? 0) eqn:EL.
    + apply Z.eqb_eq in EL. split; [intros _ | reflexivity].
      exists (Z.log2 v). split.
      * split; [exact Hk0 |]. apply Z.log2_lt_pow2; lia.
      * destruct (Z.eq_dec v (2 ^ Z.log2 v)) as [E | NE]; [exact E |].
        exfalso.
        assert (Hb : Z.testbit v (Z.log2 v) = true)
          by (apply Z.bit_log2; lia).
        assert (Hl : Z.log2 (v - 1) = Z.log2 v).
        { apply Z.log2_unique; [exact Hk0 |].
          replace (Z.succ (Z.log2 v)) with (Z.log2 v + 1) in * by lia. lia. }
        assert (Hb' : Z.testbit (v - 1) (Z.log2 v) = true).
        { rewrite <- Hl. apply Z.bit_log2.
          assert (0 < 2 ^ Z.log2 v) by (apply Z.pow_pos_nonneg; lia). lia. }
        assert (Hc : Z.testbit (Z.land v (v - 1)) (Z.log2 v) = true)
          by (rewrite Z.land_spec, Hb, Hb'; reflexivity).
        rewrite EL, Z.bits_0 in Hc. discriminate.
    + apply Z.eqb_neq in EL. split; [discriminate |].
      intros (k & Hk & Hp). exfalso. apply EL. subst v.
      replace (2 ^ k - 1) with (Z.ones k) by (rewrite Z.ones_equiv; lia).
      rewrite Z.land_ones by lia.
      apply Z_mod_same_full.
Qed.

Lemma is_power_of_2_iff_witness :
  0 <= 512 < 2 ^ 32 /\
  (is_power_of_2 512 = 1 <-> exists k, 0 <= k < 32 /\ 512 = 2 ^ k).
Proof.
  split; [lia |].
  apply (is_power_of_2_iff 512). lia.
Defined.

Lemma le32_low_half m a : le32_at m a mod 2 ^ 16 = le16_at m a.
Proof.
  unfold le32_at.
  pose proof (le16_range m a) as H. unfold le16_at in H.
  rewrite <- Z.land_ones by lia.
  rewrite Z.land_lor_distr_l.
  rewrite !Z.land_ones by lia.
  rewrite lor_high_mod16 by lia.
  rewrite shiftl_high_mod16 by lia.
  apply Z.lor_0_r.
Qed.

(** X2.  [read_bpb_unit], member by member, as the macro is written: a
    member is read at the block pointer plus the value that very member
    has in a block at address 0, not at the member's offset.  What is
    read there is the byte for an 8-bit member, the little-endian half
    for a 16-bit member, and only the low 16 bits of the little-endian
    word for the four 32-bit members ([nr_hidden], [nr_sectors],
    [fat_size], [cluster_root]). *)
Theorem decode_bpb_fields :
  forall m ptr,
    let b := decode_bpb m ptr in
    let at8 o := load8 m (ptr + load8 m o) in
    let at16 o := le16_at m (ptr + le16_at m o) in
    let at32 o := le32_at m (ptr + to_int (le32_at m o)) mod 2 ^ 16 in
    sector_sz16 b = at16 0x00 /\
    bpb_cluster_sz b = at8 0x02 /\
    nr_reserved b = at16 0x03 /\
    bpb_nr_fats b = at8 0x05 /\
    nr_dirents16 b = at16 0x06 /\
    nr_sectors16 b = at16 0x08 /\
    media_type b = at8 0x0a /\
    fat_size16 b = at16 0x0b /\
    track_size b = at16 0x0d /\
    nr_heads b = at16 0x0f /\
    nr_hidden b = at32 0x11 /\
    bpb_nr_sectors b = at32 0x15 /\
    fat_size b = at32 0x19 /\
    flags b = at16 0x1d /\
    version b = at16 0x1f /\
    cluster_root b = at32 0x21 /\
    fs_info b = at16 0x25 /\
    boot_sector b = at16 0x27.
Proof.
  intros m ptr. cbv zeta.
  unfold decode_bpb, read_bpb_unit, null_member, read_unaligned.
  cbn [Z.eqb Pos.eqb Z.add].
  cbn [sector_sz16 bpb_cluster_sz nr_reserved bpb_nr_fats nr_dirents16
       nr_sectors16 media_type fat_size16 track_size nr_heads nr_hidden
       bpb_nr_sectors fat_size flags version cluster_root fs_info
       boot_sector].
  rewrite !read_half_le16, !read_word_le16, !le32_low_half.
  unfold read_byte.
  repeat split; reflexivity.
Qed.

(** ** Mount, step by step *)

(** X3.  [read_bpb] calls the provider exactly once, for sector 0 and
    one sector, with [xfat.buffer] in the host position and the host in
    the buffer position.  When the provider fails, its status is
    returned as it is and the context is untouched; when it succeeds,
    the block decoded from [xfat.buffer + 0x0b] is stored in [xfat.bpb]
    before any check is made, and nothing else in the context changes. *)
Theorem read_bpb_effects :
  forall Dev (m : machine Dev),
    let r := read_sectors (host (ctx m)) (device m) (ram m)
                          (buffer (ctx m)) (host_addr (host (ctx m))) 0 1 in
    let m' := fst (read_bpb m) in
    io_log m' = io_log m ++ [(0, 1)] /\
    ram m' = snd (fst r) /\
    (fst (fst r) < 0 ->
     snd (read_bpb m) = fst (fst r) /\ ctx m' = ctx m) /\
    (0 <= fst (fst r) ->
     ctx m' = set_bpb (ctx m)
                      (decode_bpb (snd (fst r)) (buffer (ctx m) + 0x0b))).
Proof.
  intros Dev m. cbv zeta.
  unfold read_bpb, provider_read.
  destruct (read_sectors (host (ctx m)) (device m) (ram m) (buffer (ctx m))
                         (host_addr (host (ctx m))) 0 1)
    as [[ret ram'] dev'].
  cbn [fst snd].
  destruct (ret <? 0) eqn:E; cbn [fst snd ctx ram io_log with_ctx].
  - apply Z.ltb_lt in E. repeat split; intros; try reflexivity; lia.
  - apply Z.ltb_ge in E. repeat split; intros; try reflexivity; lia.
Qed.

(** X4.  [xfat_init] installs the host and the host's buffer in the
    context whether or not the mount goes through, leaves [slba] and
    [elba] as they were (its [lba] and [nr_sectors] arguments are not
    stored), issues exactly one provider read, of sector 0, and hands a
    negative provider status back unchanged. *)
Theorem xfat_init_effects :
  forall Dev (m : machine Dev) (lba nr : Z) (h : xfat_storage_provider Dev),
    let m' := fst (xfat_init m lba nr h) in
    host (ctx m') = h /\
    buffer (ctx m') = host_buffer h /\
    slba (ctx m') = slba (ctx m) /\
    elba (ctx m') = elba (ctx m) /\
    io_log m' = io_log m ++ [(0, 1)] /\
    (fst (fst (boot_read m h)) < 0 ->
     snd (xfat_init m lba nr h) = Ret (fst (fst (boot_read m h)))).
Proof.
  intros Dev m lba nr h. cbv zeta.
  unfold xfat_init, read_bpb, provider_read, boot_read.
  cbn [ctx ram device io_log with_ctx host buffer set_buffer set_host].
  destruct (read_sectors h (device m) (ram m) (host_buffer h) (host_addr h) 0 1)
    as [[ret ram'] dev'].
  cbn [fst snd].
  destruct (ret <? 0) eqn:E.
  - rewrite E. cbn. repeat split; reflexivity.
  - rewrite validate_bpb_fails. cbn. apply Z.ltb_ge in E.
    repeat split; intros; try reflexivity; lia.
Qed.

(** ** Sector cache, continued *)

Section CacheLaws.

Context {Dev : Type}.
Variable lba : xfat Dev -> Z -> Z.

Lemma read_sector_cases (m : machine Dev) (sector : Z) :
  read_sector lba m sector = (m, 0) /\ cur_sector (ctx m) = sector \/
  exists ret ram' dev',
    cur_sector (ctx m) <> sector /\
    read_sectors (host (ctx m)) (device m) (ram m)
                 (host_addr (host (ctx m))) (buffer (ctx m))
                 (lba (ctx m) sector) 1 = (ret, ram', dev') /\
    read_sector lba m sector =
    (if ret <? 0
     then (mk_machine (ctx m) ram' dev'
                      (io_log m ++ [(lba (ctx m) sector, 1)]), -1)
     else (mk_machine (set_cur_sector (ctx m) sector) ram' dev'
                      (io_log m ++ [(lba (ctx m) sector, 1)]), 0)).
Proof.
  unfold read_sector, provider_read.
  destruct (cur_sector (ctx m) =? sector) eqn:E; cbn [negb].
  - left. apply Z.eqb_eq in E. split; [reflexivity | exact E].
  - right. apply Z.eqb_neq in E.
    destruct (read_sectors (host (ctx m)) (device m) (ram m)
                           (host_addr (host (ctx m))) (buffer (ctx m))
                           (lba (ctx m) sector) 1) as [[ret ram'] dev'].
    exists ret, ram', dev'. split; [exact E |]. split; [reflexivity |].
    destruct (ret <? 0); reflexivity.
Qed.

(** X5.  [read_sector] returns 0 or -1.  After a 0 the cached index is
    the requested sector; after a -1 the context is exactly what it was.
    In either case only [cur_sector] can differ: host, buffer, decoded
    block, LBA range and geometry are never written. *)
Theorem read_sector_status_and_frame :
  forall (m : machine Dev) (sector : Z),
    let m' := fst (read_sector lba m sector) in
    let r := snd (read_sector lba m sector) in
    (r = 0 \/ r = -1) /\
    (r = 0 -> cur_sector (ctx m') = sector) /\
    (r = -1 -> ctx m' = ctx m) /\
    host (ctx m') = host (ctx m) /\
    buffer (ctx m') = buffer (ctx m) /\
    bpb (ctx m') = bpb (ctx m) /\
    slba (ctx m') = slba (ctx m) /\
    elba (ctx m') = elba (ctx m) /\
    geometry (ctx m') = geometry (ctx m).
Proof.
  intros m sector. cbv zeta.
  destruct (read_sector_cases m sector)
    as [[-> Hc] | (ret & ram' & dev' & Hne & _ & ->)].
  - cbn [fst snd]. repeat split; intros; auto; discriminate.
  - destruct (ret <? 0); cbn [fst snd ctx];
      repeat split; intros; auto; discriminate.
Qed.

(** X6.  A sector that was read successfully is served from the buffer
    the second time: the repeated request returns 0, logs no provider
    read and changes nothing. *)
Theorem read_sector_twice :
  forall (m : machine Dev) (sector : Z),
    snd (read_sector lba m sector) = 0 ->
    read_sector lba (fst (read_sector lba m sector)) sector =
    (fst (read_sector lba m sector), 0).
Proof.
  intros m sector H.
  destruct (read_sector_cases m sector)
    as [[E _] | (ret & ram' & dev' & _ & _ & E)]; rewrite E in *.
  - exact E.
  - destruct (ret <? 0); cbn [fst snd] in *; [discriminate |].
    unfold read_sector. cbn [ctx cur_sector set_cur_sector].
    rewrite Z.eqb_refl. reflexivity.
Qed.

Lemma read_sector_log_step (m : machine Dev) (sector : Z) :
  exists extra,
    io_log (fst (read_sector lba m sector)) = io_log m ++ extra /\
    (List.length extra <= 1)%nat /\
    Forall (fun io => snd io = 1) extra.
Proof.
  destruct (read_sector_cases m sector)
    as [[-> _] | (ret & ram' & dev' & _ & _ & ->)].
  - exists []. cbn [fst]. rewrite app_nil_r.
    repeat split; [cbn; lia | constructor].
  - exists [(lba (ctx m) sector, 1)].
    destruct (ret <? 0); cbn [fst io_log];
      (repeat split; [cbn; lia | repeat constructor]).
Qed.

(** X7.  Whatever the requests, the cache only appends to the provider
    log, issues at most one provider read per request, and every read it
    issues is for a single sector. *)
Theorem read_all_io_bound :
  forall (reqs : list Z) (m : machine Dev),
  exists extra,
    io_log (read_all lba m reqs) = io_log m ++ extra /\
    (List.length extra <= List.length reqs)%nat /\
    Forall (fun io => snd io = 1) extra.
Proof.
  induction reqs as [| s reqs IH]; intros m.
  - exists []. cbn. rewrite app_nil_r. repeat split; [lia | constructor].
  - destruct (read_sector_log_step m s) as (e1 & H1 & L1 & F1).
    destruct (IH (fst (read_sector lba m s))) as (e2 & H2 & L2 & F2).
    exists (e1 ++ e2). unfold read_all in *. cbn [fold_left].
    rewrite H2, H1, app_assoc. split; [reflexivity |].
    split.
    + rewrite length_app. cbn [List.length]. lia.
    + apply Forall_app. split; assumption.
Qed.

End CacheLaws.

Lemma read_sector_twice_witness :
  snd (read_sector same_lba (fresh_machine (clean_fail_host 5)) 3) = 0 /\
  read_sector same_lba
    (fst (read_sector same_lba (fresh_machine (clean_fail_host 5)) 3)) 3 =
  (fst (read_sector same_lba (fresh_machine (clean_fail_host 5)) 3), 0).
Proof.
  split; [reflexivity |].
  apply (read_sector_twice same_lba (fresh_machine (clean_fail_host 5)) 3).
  reflexivity.
Defined.

Lemma bytes_at_ext (f g : mem) n :
  forall a, (forall x, a <= x -> f x = g x) -> bytes_at f a n = bytes_at g a n.
Proof.
  induction n as [| n IH]; intros a H; [reflexivity |].
  cbn [bytes_at]. unfold load8 at 1 2.
  rewrite (H a) by lia. f_equal.
  apply IH. intros x Hx. apply H. lia.
Qed.

Lemma bytes_at_store_bytes bs :
  forall m a, bytes_at (store_bytes m a bs) a (List.length bs) = map u8 bs.
Proof.
  induction bs as [| b bs IH]; intros m a; [reflexivity |].
  cbn [List.length bytes_at map store_bytes].
  unfold load8 at 1. rewrite Z.eqb_refl. f_equal.
  rewrite <- (IH m (a + 1)).
  apply bytes_at_ext. intros x Hx.
  destruct (x =? a) eqn:E; [apply Z.eqb_eq in E; lia | reflexivity].
Qed.

Lemma u8_idempotent v : u8 (u8 v) = u8 v.
Proof. unfold u8. apply Z.mod_mod. lia. Qed.

Lemma store_pattern_reads_back m buf sector :
  bytes_at (store_bytes m buf (pattern_disk sector)) buf 512 =
  pattern_disk sector.
Proof.
  pose proof (bytes_at_store_bytes (pattern_disk sector) m buf) as H.
  unfold pattern_disk in *.
  rewrite repeat_length, map_repeat, u8_idempotent in H. exact H.
Qed.

Lemma clean_fail_host_faithful bad :
  faithful_provider pattern_disk (clean_fail_host bad).
Proof.
  intros dev m hp buf sector. cbn [clean_fail_host read_sectors].
  destruct (sector =? bad); cbn [fst snd]; split; intros H;
    try discriminate H; try reflexivity.
  apply store_pattern_reads_back.
Qed.

Section CacheInvariant.

Context {Dev : Type}.
Variable lba : xfat Dev -> Z -> Z.
Variable disk : Z -> list Z.
Hypothesis lba_is_sector : forall x sector, lba x sector = sector.

Lemma read_sector_keeps_buffer (m : machine Dev) (sector : Z) :
  faithful_provider disk (host (ctx m)) ->
  buffer_holds disk m ->
  buffer_holds disk (fst (read_sector lba m sector)) /\
  host (ctx (fst (read_sector lba m sector))) = host (ctx m) /\
  buffer (ctx (fst (read_sector lba m sector))) = buffer (ctx m).
Proof.
  intros Hf Hb.
  destruct (read_sector_cases lba m sector)
    as [[-> _] | (ret & ram' & dev' & _ & Hr & ->)].
  - cbn [fst]. repeat split. exact Hb.
  - specialize (Hf (device m) (ram m) (host_addr (host (ctx m)))
                   (buffer (ctx m)) (lba (ctx m) sector)).
    cbv zeta in Hf. rewrite Hr in Hf. cbn [fst snd] in Hf.
    destruct Hf as [Hok Hfail]. unfold buffer_holds in *.
    destruct (ret <? 0); cbn [fst ctx ram cur_sector buffer set_cur_sector].
    + repeat split. rewrite Hfail by reflexivity. exact Hb.
    + repeat split. rewrite Hok by reflexivity.
      rewrite lba_is_sector. reflexivity.
Qed.

Lemma read_all_keeps_buffer (reqs : list Z) :
  forall m : machine Dev,
    faithful_provider disk (host (ctx m)) ->
    buffer_holds disk m ->
    buffer_holds disk (read_all lba m reqs) /\
    host (ctx (read_all lba m reqs)) = host (ctx m) /\
    buffer (ctx (read_all lba m reqs)) = buffer (ctx m).
Proof.
  induction reqs as [| s reqs IH]; intros m Hf Hb.
  - cbn. repeat split. exact Hb.
  - destruct (read_sector_keeps_buffer m s Hf Hb) as (Hb1 & Hh1 & Hu1).
    unfold read_all in *. cbn [fold_left].
    destruct (IH (fst (read_sector lba m s))) as (Hb2 & Hh2 & Hu2);
      [rewrite Hh1; exact Hf | exact Hb1 |].
    repeat split; [exact Hb2 | congruence | congruence].
Qed.

(** A successful read of a sector other than the cached one puts that
    sector in the buffer, whatever the buffer held before. *)
Lemma read_sector_loads_buffer (m : machine Dev) (sector : Z) :
  faithful_provider disk (host (ctx m)) ->
  cur_sector (ctx m) <> sector ->
  snd (read_sector lba m sector) = 0 ->
  buffer_holds disk (fst (read_sector lba m sector)) /\
  host (ctx (fst (read_sector lba m sector))) = host (ctx m) /\
  buffer (ctx (fst (read_sector lba m sector))) = buffer (ctx m).
Proof.
  intros Hf Hne Hz.
  destruct (read_sector_cases lba m sector)
    as [[_ Hc] | (ret & ram' & dev' & _ & Hr & E)]; [contradiction |].
  rewrite E in *.
  specialize (Hf (device m) (ram m) (host_addr (host (ctx m)))
                 (buffer (ctx m)) (lba (ctx m) sector)).
  cbv zeta in Hf. rewrite Hr in Hf. cbn [fst snd] in Hf.
  destruct Hf as [Hok _]. unfold buffer_holds.
  destruct (ret <? 0); cbn [fst snd ctx ram cur_sector buffer set_cur_sector]
    in *; [discriminate |].
  repeat split. rewrite Hok by reflexivity.
  rewrite lba_is_sector. reflexivity.
Qed.

(** X8.  Take a provider that is handed the requested sector number,
    leaves that sector in the buffer when it succeeds and leaves the
    buffer alone when it fails.  From any state, the zero-initialised
    context included, once a request for a sector other than the cached
    index has returned 0, the cache keeps its invariant through every
    further sequence of requests, failed ones included: the buffer holds
    the sector that [cur_sector] names, and a request that then returns
    0 finds the bytes of the requested sector in the buffer. *)
Theorem cache_invariant_after_first_load :
  forall (m : machine Dev) (first : Z) (reqs : list Z) (sector : Z),
    faithful_provider disk (host (ctx m)) ->
    cur_sector (ctx m) <> first ->
    snd (read_sector lba m first) = 0 ->
    let m1 := read_all lba (fst (read_sector lba m first)) reqs in
    let m2 := fst (read_sector lba m1 sector) in
    buffer_holds disk m1 /\
    (snd (read_sector lba m1 sector) = 0 ->
     bytes_at (ram m2) (buffer (ctx m)) 512 = disk sector).
Proof.
  intros m first reqs sector Hf Hne Hz. cbv zeta.
  destruct (read_sector_loads_buffer m first Hf Hne Hz) as (Hb0 & Hh0 & Hu0).
  set (m0 := fst (read_sector lba m first)) in *.
  assert (Hf0 : faithful_provider disk (host (ctx m0)))
    by (rewrite Hh0; exact Hf).
  destruct (read_all_keeps_buffer reqs m0 Hf0 Hb0) as (Hb1 & Hh1 & Hu1).
  split; [exact Hb1 |].
  intros Hs.
  assert (Hf1 : faithful_provider disk (host (ctx (read_all lba m0 reqs))))
    by (rewrite Hh1; exact Hf0).
  destruct (read_sector_keeps_buffer _ sector Hf1 Hb1) as (Hb2 & _ & Hu2).
  unfold buffer_holds in Hb2. rewrite Hu2, Hu1, Hu0 in Hb2. rewrite Hb2.
  f_equal.
  destruct (read_sector_cases lba (read_all lba m0 reqs) sector)
    as [[E Hc] | (ret & ram' & dev' & _ & _ & E)]; rewrite E in *.
  - exact Hc.
  - destruct (ret <? 0); cbn [fst snd] in *; [discriminate | reflexivity].
Qed.

End CacheInvariant.

Lemma cache_invariant_after_first_load_witness :
  cur_sector (ctx (fresh_machine (clean_fail_host 5))) <> 3 /\
  snd (read_sector same_lba (fresh_machine (clean_fail_host 5)) 3) = 0 /\
  buffer_holds pattern_disk
    (read_all same_lba
       (fst (read_sector same_lba (fresh_machine (clean_fail_host 5)) 3))
       [5; 7; 5; 3]) /\
  (snd (read_sector same_lba
          (read_all same_lba
             (fst (read_sector same_lba (fresh_machine (clean_fail_host 5)) 3))
             [5; 7; 5; 3])
          9) = 0 ->
   bytes_at
     (ram (fst (read_sector same_lba
                  (read_all same_lba
                     (fst (read_sector same_lba
                             (fresh_machine (clean_fail_host 5)) 3))
                     [5; 7; 5; 3]) 9)))
     BUF 512 = pattern_disk 9).
Proof.
  assert (Hne : cur_sector (ctx (fresh_machine (clean_fail_host 5))) <> 3)
    by (vm_compute; discriminate).
  assert (Hz : snd (read_sector same_lba
                      (fresh_machine (clean_fail_host 5)) 3) = 0)
    by reflexivity.
  split; [exact Hne |]. split; [exact Hz |].
  apply (cache_invariant_after_first_load same_lba pattern_disk
           (fun _ _ => eq_refl)
           (fresh_machine (clean_fail_host 5)) 3 [5; 7; 5; 3] 9).
  - apply clean_fail_host_faithful.
  - exact Hne.
  - exact Hz.
Defined.

(** ** Path scanning *)

Lemma not_skipped_is_not_delimiter c :
  truthy c && negb (is_delimeter c =? 0) = false -> is_delimeter c = 0.
Proof.
  intros H.
  destruct (is_delimeter_flag c) as [E | E]; [exact E |].
  rewrite (delimiter_is_truthy c E), E in H. discriminate.
Qed.

(** X9.  The delimiter skip at the head of each iteration of
    [get_dentry] removes a prefix made of '/' and '\' only and stops in
    front of a character that is not a delimiter (or at the end of the
    path). *)
Theorem skip_delimeters_prefix :
  forall s,
  exists ds,
    s = ds ++ skip_delimeters s /\
    only_delimiters ds = true /\
    is_delimeter (deref (skip_delimeters s)) = 0.
Proof.
  induction s as [| c s (ds & Hs & Hd & Hn)].
  - exists []. repeat split.
  - cbn [skip_delimeters].
    destruct (truthy c && negb (is_delimeter c =? 0)) eqn:E.
    + exists (c :: ds). split; [cbn [app]; f_equal; exact Hs |].
      split; [| exact Hn].
      unfold only_delimiters in *. cbn [forallb]. rewrite Hd.
      apply andb_prop in E. destruct E as [_ E].
      destruct (is_delimeter_flag c) as [E0 | E1].
      * rewrite E0 in E. discriminate.
      * rewrite E1. reflexivity.
    + exists []. repeat split.
      cbn [deref]. apply not_skipped_is_not_delimiter. exact E.
Qed.

Lemma scan_component_split s :
  exists comp,
    s = comp ++ scan_component s /\
    forallb ordinary comp = true /\
    ordinary (deref (scan_component s)) = false /\
    (ordinary (deref s) = true -> comp <> []).
Proof.
  induction s as [| c s (comp & Hs & Hc & He & _)].
  - exists []. repeat split. intros H. discriminate H.
  - cbn [scan_component]. fold (ordinary c).
    destruct (ordinary c) eqn:E.
    + exists (c :: comp). split; [cbn [app]; f_equal; exact Hs |].
      split; [cbn [forallb]; rewrite E, Hc; reflexivity |].
      split; [exact He | discriminate].
    + exists []. repeat split; [exact E |].
      cbn [deref]. rewrite E. discriminate.
Qed.

(** X10.  When the skip leaves the pointer on a character other than
    NUL, the scan that follows cuts a non-empty component out of the
    path: every character of it is neither NUL nor a delimiter, and the
    scan stops at the first delimiter or NUL (or at the end). *)
Theorem scan_component_cuts_component :
  forall p,
    truthy (deref (skip_delimeters p)) = true ->
    exists comp,
      skip_delimeters p = comp ++ scan_component (skip_delimeters p) /\
      comp <> [] /\
      forallb ordinary comp = true /\
      ordinary (deref (scan_component (skip_delimeters p))) = false.
Proof.
  intros p Ht.
  destruct (skip_delimeters_prefix p) as (_ & _ & _ & Hn).
  destruct (scan_component_split (skip_delimeters p))
    as (comp & Hs & Hc & He & Hne).
  exists comp. repeat split; try assumption.
  apply Hne. unfold ordinary. rewrite Ht, Hn. reflexivity.
Qed.

Lemma scan_component_cuts_component_witness :
  truthy (deref (skip_delimeters (path "//DIR/FILE.TXT"))) = true /\
  scan_component (skip_delimeters (path "//DIR/FILE.TXT")) = path "/FILE.TXT" /\
  exists comp,
    skip_delimeters (path "//DIR/FILE.TXT") =
    comp ++ scan_component (skip_delimeters (path "//DIR/FILE.TXT")) /\
    comp <> [] /\
    forallb ordinary comp = true /\
    ordinary (deref (scan_component (skip_delimeters (path "//DIR/FILE.TXT"))))
    = false.
Proof.
  split; [reflexivity |].
  split; [reflexivity |].
  apply (scan_component_cuts_component (path "//DIR/FILE.TXT")).
  reflexivity.
Defined.

(** X11.  [get_dentry] on any path: when nothing but delimiters precedes
    the end of the path or its first NUL, it returns -1 in the first
    iteration with the state and [*d] untouched; in every other case it
    has not returned after any number of iterations. *)
Theorem get_dentry_returns_iff_no_component :
  forall Dev (fat_entry : machine Dev -> Z -> machine Dev * Z)
         (fuel : nat) (m : machine Dev) (p : list ascii)
         (d : xfat32_dentry),
    get_dentry fat_entry (S fuel) m p d =
    (if truthy (deref (skip_delimeters p)) then None else Some (m, -1, d)).
Proof.
  intros Dev fat_entry fuel m p d.
  destruct (truthy (deref (skip_delimeters p))) eqn:E.
  - apply get_dentry_component_diverges. exact E.
  - unfold get_dentry. cbn [get_dentry_loop]. rewrite E. reflexivity.
Qed.

(** X12.  Neither scanning loop moves its pointer past the first NUL of
    the path: whatever follows the NUL in memory, the pointer that
    [skip_delimeters] or [scan_component] returns is at that NUL or in
    front of it. *)
Theorem scans_stop_at_NUL :
  forall p q,
    forallb truthy p = true ->
    (exists r, skip_delimeters (p ++ NUL :: q) = r ++ NUL :: q) /\
    (exists r, scan_component (p ++ NUL :: q) = r ++ NUL :: q).
Proof.
  induction p as [| c p IH]; intros q H.
  - split; exists []; reflexivity.
  - cbn [forallb] in H. apply andb_prop in H. destruct H as [_ Hp].
    destruct (IH q Hp) as [(r1 & H1) (r2 & H2)].
    cbn [app skip_delimeters scan_component]. split.
    + destruct (truthy c && negb (is_delimeter c =? 0)).
      * exists r1. exact H1.
      * exists (c :: p). reflexivity.
    + destruct (truthy c && (is_delimeter c =? 0)).
      * exists r2. exact H2.
      * exists (c :: p). reflexivity.
Qed.

Lemma scans_stop_at_NUL_witness :
  forallb truthy (path "//A") = true /\
  skip_delimeters (path "//A" ++ NUL :: path "/B") =
  path "A" ++ NUL :: path "/B" /\
  (exists r, scan_component (path "//A" ++ NUL :: path "/B") =
             r ++ NUL :: path "/B").
Proof.
  split; [reflexivity |].
  split; [reflexivity |].
  apply (scans_stop_at_NUL (path "//A") (path "/B")).
  reflexivity.
Defined.

(** X13.  [xfat_readfile] on any request: for a path without a
    component it returns -1 with memory, context and provider log
    untouched, whatever buffer, offset and size are passed; for any
    other path it has not returned after any number of iterations. *)
Theorem xfat_readfile_returns_iff_no_component :
  forall Dev (fat_entry : machine Dev -> Z -> machine Dev * Z)
         (fuel : nat) (m : machine Dev) (p : list ascii)
         (buf offset size : Z) (d : xfat32_dentry),
    xfat_readfile fat_entry (S fuel) m p buf offset size d =
    (if truthy (deref (skip_delimeters p))
     then None
     else Some (m, Ret (-1))).
Proof.
  intros Dev fat_entry fuel m p buf offset size d.
  unfold xfat_readfile.
  destruct (truthy (deref (skip_delimeters p))) eqn:E.
  - rewrite get_dentry_component_diverges by exact E. reflexivity.
  - unfold get_dentry. cbn [get_dentry_loop]. rewrite E. reflexivity.
Qed.
